(** * parsip: the lookup-table generator [scripts/lookup_table_generator.py]

    A shallow embedding of the script and the properties of its byte
    classifiers and of the table emitter.

    - Python integers are [Z]; [i % align] is [Z.modulo] (the sign of the
      divisor, as in Python), with [ZeroDivisionError] written out.
    - A [bytes] literal is the list of its byte values; [b in bytes_literal]
      for an integer [b] raises [ValueError] outside [range(0, 256)].
    - [print] appends to standard output, which is threaded as a state;
      an exception leaves what was printed before it in place (the
      interpreter flushes the stream when it exits on the exception).
    - Assertions are checked (the script is not run with [-O]).
    - The interpreter is CPython 3.11 or later with its default settings:
      converting an [int] of more than 4300 decimal digits to [str]
      raises [ValueError].
    - The dictionary [GENERATORS] is a [gmap] from names to classifiers. *)

From Stdlib Require Import ZArith String Ascii DecimalString.
From stdpp Require Import base gmap strings list.

Open Scope string_scope.
Open Scope Z_scope.

(** ** Python values, exceptions and results *)

Inductive exn : Type :=
| AssertionError
| KeyError (key : string)
| ValueError
| ZeroDivisionError.

Inductive result (A : Type) : Type :=
| Ok (a : A)
| Raise (e : exn).
Arguments Ok {A} a.
Arguments Raise {A} e.

(** The values the parameter [n] of [generate_lookup_table] can be bound
    to.  [bool] is a subclass of [int] in Python; a float is kept as
    mantissa and exponent (its value is never inspected: only its type is). *)
Inductive pyval : Type :=
| PyInt (z : Z)
| PyBool (b : bool)
| PyFloat (mantissa exponent : Z)
| PyStr (s : string)
| PyNone.

(** The decimal text of an integer: [str(z)] where the conversion is
    accepted. *)
Definition str_int (z : Z) : string := NilZero.string_of_int (Z.to_int z).

(** [sys.int_info.default_max_str_digits]. *)
Definition MAX_STR_DIGITS : Z := 4300.

(** The number of decimal digits of an integer, its sign apart. *)
Definition decimal_digits (z : Z) : Z :=
  Z.of_nat (String.length (str_int (Z.abs z))).

(** What the body of [generate_lookup_table] uses of [n] once
    [isinstance(n, int)] holds: the integer it denotes (for [range]) and
    the text [str(n)] gives when it accepts [n] (for [format]).  [None] is
    the failed assertion. *)
Definition isinstance_int (n : pyval) : option (Z * string) :=
  match n with
  | PyInt z => Some (z, str_int z)
  | PyBool b => Some (Z.b2z b, if b then "True" else "False")
  | _ => None
  end.

#[global] Instance result_ret : MRet result := λ A a, Ok a.
#[global] Instance result_bind : MBind result := λ A B f m,
  match m with Ok a => f a | Raise e => Raise e end.
#[global] Instance result_fmap : FMap result := λ A B f m,
  match m with Ok a => Ok (f a) | Raise e => Raise e end.

(** ** Standard output as state *)

Definition IO (A : Type) : Type := string → result A * string.

#[global] Instance IO_ret : MRet IO := λ A a out, (Ok a, out).
#[global] Instance IO_bind : MBind IO := λ A B f m out,
  match m out with
  | (Ok a, out') => f a out'
  | (Raise e, out') => (Raise e, out')
  end.

Definition raise {A} (e : exn) : IO A := λ out, (Raise e, out).
Definition lift {A} (r : result A) : IO A := λ out, (r, out).

Definition nl : string := String "010" "".

(** [print(s, end=e)]. *)
Definition print (s : string) (e : string) : IO unit :=
  λ out, (Ok tt, out +:+ s +:+ e).

(** [for x in xs: body(x)]. *)
Fixpoint for_each {A} (xs : list A) (body : A → IO unit) : IO unit :=
  match xs with
  | [] => mret tt
  | x :: xs' => body x ;; for_each xs' body
  end.

(** ['{}'.format(n)] for an instance of [int] of value [count] that [str]
    shows as [shown]: the conversion of an integer of more than
    [MAX_STR_DIGITS] digits raises.  [True] and [False], of value 1 and 0,
    are always shown. *)
Definition format (count : Z) (shown : string) : result string :=
  if MAX_STR_DIGITS <? decimal_digits count then Raise ValueError
  else Ok shown.

(** [range(n)] for an integer [n]: empty when [n <= 0]. *)
Definition range (n : Z) : list Z := seqZ 0 n.

(** [i % align]. *)
Definition py_mod (i align : Z) : result Z :=
  if align =? 0 then Raise ZeroDivisionError else Ok (i mod align).

(** ** Bytes literals *)

Definition ord (c : ascii) : Z := Z.of_nat (nat_of_ascii c).

Definition bytes (s : string) : list Z := ord <$> list_ascii_of_string s.

(** [b in lit] for an integer [b] and a bytes object [lit]. *)
Definition contains (lit : list Z) (b : Z) : result bool :=
  if (0 <=? b) && (b <? 256) then Ok (existsb (Z.eqb b) lit)
  else Raise ValueError.

(** [x or y]: [y] is evaluated only when [x] is false.  Every operand in
    the script is a comparison, a membership test or a classifier call, so
    the value is a [bool]. *)
Definition py_or (x y : result bool) : result bool :=
  match x with
  | Ok true => Ok true
  | Ok false => y
  | Raise e => Raise e
  end.
#[local] Infix "or" := py_or (at level 51, right associativity, only parsing).

(** [lo <= b <= hi]. *)
Definition between (lo b hi : Z) : bool := (lo <=? b) && (b <=? hi).

(** ** The classifiers *)

Definition is_alphanum (b : Z) : result bool :=
  Ok (between (ord "a") b (ord "z")) or
  Ok (between (ord "A") b (ord "Z")) or
  Ok (between (ord "0") b (ord "9")).

Definition is_token (b : Z) : result bool :=
  is_alphanum b or
  contains (bytes "!%'*+-._`~") b.

Definition is_request_uri (b : Z) : result bool :=
  is_alphanum b or
  contains (bytes "!$%&'()*+,-./:;=?@_~") b.

Definition is_reason_phrase (b : Z) : result bool :=
  is_alphanum b or
  contains (bytes "!$%&'()*+,-./:;=?@_~") b or
  contains [0xff] b or
  contains [ord " "; 0x09] b.

Definition is_UTF8_NONASCII (b : Z) : result bool :=
  Ok (between 0xC0 b 0xDF) or
  Ok (between 0xE0 b 0xEF) or
  Ok (between 0xF0 b 0xF7) or
  Ok (between 0xF8 b 0xFb) or
  Ok (between 0xFC b 0xFD).

Definition is_TEXT_UTF8char (b : Z) : result bool :=
  Ok (between 0x21 b 0x7E) or
  is_UTF8_NONASCII b.

Definition is_UTF8_CONT (b : Z) : result bool :=
  Ok (between 0x80 b 0xBF).

Definition is_LWS (b : Z) : result bool :=
  contains [0x20; 0x09; 0x0D; 0x0A] b.

Definition is_header_value (b : Z) : result bool :=
  is_TEXT_UTF8char b or
  is_UTF8_CONT b or
  is_LWS b or
  contains [0x00; 0x07; 0x7F] b.

(** ** The emitter *)

Definition FIRST_LINE (name n : string) : string :=
  "static " +:+ name +:+ ": [bool; " +:+ n +:+ "] = byte_map![".

Definition LAST_LINE : string := "];".

(** [1 if v else 0]. *)
Definition flag (v : bool) : Z := if v then 1 else 0.

(** One iteration of the loop of [generate_lookup_table].  The entry
    formatted is 0 or 1, a single digit. *)
Definition emit_entry (func : Z → result bool) (align i : Z) : IO unit :=
  r ← lift (py_mod i align);
  (if r =? 0 then print (nl +:+ "   ") "" else mret tt) ;;
  v ← lift (func i);
  print (" " +:+ str_int (flag v) +:+ ",") "".

Definition generate_lookup_table
    (name : string) (func : Z → result bool) (n : pyval) (align : Z) : IO unit :=
  match isinstance_int n with
  | None => raise AssertionError
  | Some (count, shown) =>
      text ← lift (format count shown);
      print (FIRST_LINE name text) "" ;;
      for_each (range count) (emit_entry func align) ;;
      print (nl +:+ LAST_LINE +:+ nl) nl
  end.

Definition GENERATORS : gmap string (Z → result bool) :=
  <["TOKEN_MAP" := is_token]>
  (<["REQUEST_URI_MAP" := is_request_uri]>
  (<["REASON_PHRASE_MAP" := is_reason_phrase]>
  (<["HEADER_VALUE_MAP" := is_header_value]> ∅))).

(** [GENERATORS[arg]]. *)
Definition getitem (arg : string) : IO (Z → result bool) :=
  match GENERATORS !! arg with
  | Some func => mret func
  | None => raise (KeyError arg)
  end.

(** [main(args)]: the defaults [n=256], [align=16] are used. *)
Fixpoint main (args : list string) : IO unit :=
  match args with
  | [] => mret tt
  | arg :: rest =>
      func ← getitem arg;
      generate_lookup_table arg func (PyInt 256) 16 ;;
      main rest
  end.


(** ** Reading a table back from the emitted text *)

(** [s.split(c)]. *)
Fixpoint split_on (c : ascii) (s : string) : list string :=
  match s with
  | "" => [""]
  | String a s' =>
      if Ascii.eqb a c then "" :: split_on c s'
      else match split_on c s' with
           | piece :: pieces => String a piece :: pieces
           | [] => [String a ""]
           end
  end.

Definition lines : string → list string := split_on "010".

Fixpoint lstrip (s : string) : string :=
  match s with
  | String " " s' => lstrip s'
  | _ => s
  end.

(** One cell of a row: [0] or [1] after blanks; anything else is no entry. *)
Definition read_entry (cell : string) : option Z :=
  match lstrip cell with
  | "0" => Some 0
  | "1" => Some 1
  | _ => None
  end.

Definition row_entries (row : string) : list Z :=
  omap read_entry (split_on "," row).

Fixpoint until_last_line (ls : list string) : list string :=
  match ls with
  | [] => []
  | l :: ls' => if String.eqb l LAST_LINE then [] else l :: until_last_line ls'
  end.

(** The rows of a table: the lines of the text printed after [FIRST_LINE],
    from its first line break up to the closing [LAST_LINE].  The whole
    artifact of a name without line break reads the same way, [FIRST_LINE]
    being its first line. *)
Definition table_rows (table : string) : list string :=
  until_last_line (tail (lines table)).

Definition table_entries (table : string) : list Z :=
  concat (row_entries <$> table_rows table).

(** * Definitions used by the statements and the proofs *)

#[global] Instance exn_eq_dec : EqDecision exn.
Proof. solve_decision. Defined.

#[global] Instance result_eq_dec `{EqDecision A} : EqDecision (result A).
Proof. solve_decision. Defined.

(** The entry the emitter prints for index [b]: [1 if func(b) else 0]. *)
Definition entry (func : Z → result bool) (b : Z) : result Z :=
  flag <$> func b.

(** [" {},".format(1 if v else 0)]. *)
Definition cell (v : bool) : string := " " +:+ str_int (flag v) +:+ ",".

(** What the loop prints before the entry of index [i]. *)
Definition row_break (align i : Z) : string :=
  if i mod align =? 0 then nl +:+ "   " else "".

(** The value of [func(i)] where it returns. *)
Definition value_of (func : Z → result bool) (i : Z) : bool :=
  match func i with Ok v => v | Raise _ => false end.

(** What the loop prints over [indices] when the classifier returns
    [vals i] at each of them. *)
Definition loop_text (align : Z) (vals : Z → bool) (indices : list Z) : string :=
  foldr (λ i acc, row_break align i +:+ cell (vals i) +:+ acc) "" indices.

(** The text after [FIRST_LINE] when every call of [func] returns. *)
Definition table_text (align : Z) (vals : Z → bool) (count : Z) : string :=
  loop_text align vals (range count) +:+ nl +:+ LAST_LINE +:+ nl +:+ nl.

(** [m] only appends to standard output, and what it appends and how it
    ends do not depend on what was printed before. *)
Definition framed {A} (m : IO A) : Prop :=
  ∀ out, m out = ((m "").1, out +:+ (m "").2).

(** The text [main] prints for a registered name. *)
Definition artifact (name : string) : string :=
  match GENERATORS !! name with
  | Some func => FIRST_LINE name "256" +:+ table_text 16 (value_of func) 256
  | None => ""
  end.

Definition artifacts (names : list string) : string :=
  foldr (λ name acc, artifact name +:+ acc) "" names.

(** [c in s]. *)
Fixpoint occurs (c : ascii) (s : string) : bool :=
  match s with
  | "" => false
  | String a s' => Ascii.eqb a c || occurs c s'
  end.

(** The entries of [indices], without row breaks. *)
Definition cells (vals : Z → bool) (indices : list Z) : string :=
  foldr (λ i acc, cell (vals i) +:+ acc) "" indices.

(** The indices of a span (first index, length). *)
Definition span_indices (span : Z * Z) : list Z := seqZ span.1 span.2.

(** The row holding the entries of a span. *)
Definition row_text (vals : Z → bool) (span : Z * Z) : string :=
  "   " +:+ cells vals (span_indices span).

(** Rows one after the other, each after a line break. *)
Definition rows_text (rows : list string) : string :=
  foldr (λ row acc, nl +:+ row +:+ acc) "" rows.

(** The index spans (first index, length) of the rows of [count] entries
    at [width] a row: the full rows, then the rest if any. *)
Definition row_spans (width count : Z) : list (Z * Z) :=
  ((λ k, (k * width, width)) <$> seqZ 0 (count / width)) ++
  (if count mod width =? 0 then []
   else [(count / width * width, count mod width)]).

(** A span that starts a row and fits in it. *)
Definition aligned (width : Z) (span : Z * Z) : Prop :=
  (∃ k, span.1 = k * width) ∧ 0 < span.2 ≤ width.

(** Rows one after the other, each closed by a line break, then [rest]. *)
Definition rows_body (rows : list string) (rest : string) : string :=
  foldr (λ row acc, row +:+ nl +:+ acc) rest rows.

(** Closed decidable side conditions are settled by running them. *)
Ltac by_computation := apply (bool_decide_unpack _); vm_compute; exact I.

(** * Properties of the classifiers *)

(** A decidable property of all 256 byte values is settled by running it. *)
Lemma forall_bytes (P : Z → Prop) {Hdec : ∀ b, Decision (P b)} :
  bool_decide (Forall P (range 256)) = true → ∀ b, 0 ≤ b ≤ 255 → P b.
Proof.
  intros Hall b Hb. apply bool_decide_eq_true in Hall.
  rewrite Forall_forall in Hall. apply Hall.
  unfold range. apply elem_of_seqZ. lia.
Qed.

Lemma py_or_Ok (x y : bool) : py_or (Ok x) (Ok y) = Ok (x || y).
Proof. by destruct x. Qed.

Lemma contains_byte lit b :
  0 ≤ b ≤ 255 → contains lit b = Ok (existsb (Z.eqb b) lit).
Proof.
  intros [Hlo Hhi]. unfold contains.
  apply Z.leb_le in Hlo. assert ((b <? 256) = true) as Hlt by lia.
  by rewrite Hlo, Hlt.
Qed.

Lemma contains_out_of_range lit b :
  ¬ 0 ≤ b ≤ 255 → contains lit b = Raise ValueError.
Proof.
  intros Hb. unfold contains.
  destruct (Z.leb_spec 0 b), (Z.ltb_spec b 256); simpl; try done. lia.
Qed.

Lemma existsb_eqb_elem_of b lit : existsb (Z.eqb b) lit = true ↔ b ∈ lit.
Proof.
  rewrite existsb_exists. split.
  - intros (x & Hin & Heq). apply Z.eqb_eq in Heq as ->.
    by apply list_elem_of_In.
  - intros Hin. exists b. split; [by apply list_elem_of_In | apply Z.eqb_refl].
Qed.

Lemma between_spec lo b hi : between lo b hi = true ↔ lo ≤ b ≤ hi.
Proof. unfold between. rewrite andb_true_iff, !Z.leb_le. done. Qed.

Lemma is_alphanum_Ok b :
  is_alphanum b =
  Ok (between (ord "a") b (ord "z") || between (ord "A") b (ord "Z")
      || between (ord "0") b (ord "9")).
Proof. unfold is_alphanum. by rewrite !py_or_Ok, orb_assoc. Qed.

Lemma entry_Ok_1 func b v : func b = Ok v → (entry func b = Ok 1 ↔ v = true).
Proof. unfold entry. intros ->. destruct v; simpl; split; congruence. Qed.

Lemma entry_Ok_0 func b v : func b = Ok v → (entry func b = Ok 0 ↔ v = false).
Proof. unfold entry. intros ->. destruct v; simpl; split; congruence. Qed.

Lemma GENERATORS_lookup name func :
  GENERATORS !! name = Some func →
  name = "TOKEN_MAP" ∧ func = is_token ∨
  name = "REQUEST_URI_MAP" ∧ func = is_request_uri ∨
  name = "REASON_PHRASE_MAP" ∧ func = is_reason_phrase ∨
  name = "HEADER_VALUE_MAP" ∧ func = is_header_value.
Proof.
  unfold GENERATORS. rewrite !lookup_insert_Some, lookup_empty.
  intros [[<- <-]|[_ [[<- <-]|[_ [[<- <-]|[_ [[<- <-]|[_ ?]]]]]]]]; auto 6.
  done.
Qed.

(** C1: over the bytes, the header-value classifier yields 1 exactly on
    {0x00, 0x07, 0x09, 0x0A, 0x0D, 0x20, 0x7F}, on [0x21, 0x7E] and on
    [0x80, 0xFD], and 0 on every other byte; in particular on 0x01-0x06,
    0x08, 0x0B, 0x0C, 0x0E-0x1F, 0xFE and 0xFF. *)
Theorem header_value_map_bytes : ∀ b, 0 ≤ b ≤ 255 →
  let member :=
    b ∈ [0x00; 0x07; 0x09; 0x0A; 0x0D; 0x20; 0x7F] ∨
    0x21 ≤ b ≤ 0x7E ∨ 0x80 ≤ b ≤ 0xFD in
  (entry is_header_value b = Ok 1 ↔ member) ∧
  (entry is_header_value b = Ok 0 ↔ ¬ member) ∧
  (0x01 ≤ b ≤ 0x06 ∨ b ∈ [0x08; 0x0B; 0x0C] ∨ 0x0E ≤ b ≤ 0x1F ∨
   b ∈ [0xFE; 0xFF] → entry is_header_value b = Ok 0).
Proof. apply (forall_bytes _). by vm_compute. Qed.

Lemma header_value_map_bytes_witness :
  0 ≤ 0x0D ≤ 255 ∧ entry is_header_value 0x0D = Ok 1 ∧
  entry is_header_value 0xFE = Ok 0.
Proof.
  split; [lia |]. split.
  - apply (header_value_map_bytes 0x0D); by_computation.
  - apply (header_value_map_bytes 0xFE); by_computation.
Defined.

(** C2: over the bytes, the token classifier yields 1 if and only if the
    byte is an ASCII letter, an ASCII digit or one of ! % ' * + - . _ ` ~,
    and 0 on every other byte. *)
Theorem token_map_bytes : ∀ b, 0 ≤ b ≤ 255 →
  let member :=
    (ord "a" ≤ b ≤ ord "z" ∨ ord "A" ≤ b ≤ ord "Z") ∨
    ord "0" ≤ b ≤ ord "9" ∨
    b ∈ ord <$> ["!"; "%"; "'"; "*"; "+"; "-"; "."; "_"; "`"; "~"]%char in
  (entry is_token b = Ok 1 ↔ member) ∧
  (entry is_token b = Ok 0 ↔ ¬ member).
Proof.
  intros b Hb member.
  assert (∃ v, is_token b = Ok v ∧ (v = true ↔ member)) as (v & Hv & Hiff).
  { unfold is_token. rewrite is_alphanum_Ok, contains_byte, py_or_Ok by done.
    eexists; split; [done |]. subst member.
    rewrite !orb_true_iff, !between_spec, existsb_eqb_elem_of. tauto. }
  rewrite (entry_Ok_1 _ _ _ Hv), (entry_Ok_0 _ _ _ Hv).
  split; [done |]. rewrite <- Hiff. by destruct v.
Qed.

(** The examples of C2: index ord('A') holds 1, ord('-') holds 1 and
    ord(' ') holds 0. *)
Lemma token_map_bytes_witness :
  0 ≤ ord "A" ≤ 255 ∧
  entry is_token (ord "A") = Ok 1 ∧ entry is_token (ord "-") = Ok 1 ∧
  entry is_token (ord " ") = Ok 0.
Proof.
  split; [by_computation |]. split; [| split].
  - apply (token_map_bytes (ord "A")); by_computation.
  - apply (token_map_bytes (ord "-")); by_computation.
  - apply (token_map_bytes (ord " ")); by_computation.
Defined.

(** C3: over the bytes, the reason-phrase classifier yields 1 if and only
    if the byte is alphanumeric, one of
    ! $ % & ' ( ) * + , - . / : ; = ? @ _ ~, the byte 0xFF, SPACE or HTAB,
    and 0 on every other byte. *)
Theorem reason_phrase_map_bytes : ∀ b, 0 ≤ b ≤ 255 →
  let member :=
    (ord "a" ≤ b ≤ ord "z" ∨ ord "A" ≤ b ≤ ord "Z" ∨ ord "0" ≤ b ≤ ord "9") ∨
    b ∈ ord <$> ["!"; "$"; "%"; "&"; "'"; "("; ")"; "*"; "+"; ","; "-"; ".";
                 "/"; ":"; ";"; "="; "?"; "@"; "_"; "~"]%char ∨
    b = 0xFF ∨ b = 0x20 ∨ b = 0x09 in
  (entry is_reason_phrase b = Ok 1 ↔ member) ∧
  (entry is_reason_phrase b = Ok 0 ↔ ¬ member).
Proof.
  intros b Hb member.
  assert (∃ v, is_reason_phrase b = Ok v ∧ (v = true ↔ member))
    as (v & Hv & Hiff).
  { unfold is_reason_phrase.
    rewrite is_alphanum_Ok, !contains_byte, !py_or_Ok by done.
    eexists; split; [done |]. subst member.
    rewrite !orb_true_iff, !between_spec, !existsb_eqb_elem_of.
    rewrite list_elem_of_singleton, !elem_of_cons, elem_of_nil.
    change (ord " ") with 0x20. tauto. }
  rewrite (entry_Ok_1 _ _ _ Hv), (entry_Ok_0 _ _ _ Hv).
  split; [done |]. rewrite <- Hiff. by destruct v.
Qed.

(** The examples of C3: 0xFF and HTAB hold 1, NUL holds 0. *)
Lemma reason_phrase_map_bytes_witness :
  0 ≤ 0xFF ≤ 255 ∧
  entry is_reason_phrase 0xFF = Ok 1 ∧ entry is_reason_phrase 0x09 = Ok 1 ∧
  entry is_reason_phrase 0x00 = Ok 0.
Proof.
  split; [lia |]. split; [| split].
  - apply (reason_phrase_map_bytes 0xFF); by_computation.
  - apply (reason_phrase_map_bytes 0x09); by_computation.
  - apply (reason_phrase_map_bytes 0x00); by_computation.
Defined.

Lemma is_UTF8_NONASCII_Ok b : ∃ v, is_UTF8_NONASCII b = Ok v.
Proof. unfold is_UTF8_NONASCII. rewrite !py_or_Ok. eauto. Qed.

Lemma py_or_total x y :
  (∃ v, x = Ok v) → (∃ v, y = Ok v) → ∃ v, py_or x y = Ok v.
Proof. intros [[] ->] [w ->]; simpl; eauto. Qed.

Lemma contains_total lit b : 0 ≤ b ≤ 255 → ∃ v, contains lit b = Ok v.
Proof. intros Hb. rewrite contains_byte by done. eauto. Qed.

Lemma is_alphanum_total b : ∃ v, is_alphanum b = Ok v.
Proof. rewrite is_alphanum_Ok. eauto. Qed.

Create HintDb total discriminated.
#[local] Hint Resolve py_or_total contains_total is_alphanum_total
  is_UTF8_NONASCII_Ok : total.
#[local] Hint Extern 1 (∃ v, Ok _ = Ok v) => eexists; reflexivity : total.

Lemma registered_total name func b :
  GENERATORS !! name = Some func → 0 ≤ b ≤ 255 → ∃ v : bool, func b = Ok v.
Proof.
  intros Hreg Hb.
  destruct (GENERATORS_lookup _ _ Hreg) as
    [[_ ->]|[[_ ->]|[[_ ->]|[_ ->]]]].
  - unfold is_token. auto with total.
  - unfold is_request_uri. auto with total.
  - unfold is_reason_phrase. auto 6 with total.
  - unfold is_header_value, is_TEXT_UTF8char, is_UTF8_CONT, is_LWS.
    auto 6 with total.
Qed.

(** C8: every registered classifier returns a boolean, and raises
    nothing, on every byte value in [0, 255]. *)
Theorem classifiers_total_on_bytes : ∀ name func,
  GENERATORS !! name = Some func →
  ∀ b, 0 ≤ b ≤ 255 → ∃ v : bool, func b = Ok v.
Proof. intros name func Hreg b Hb. by eapply registered_total. Qed.

Lemma classifiers_total_on_bytes_witness :
  ∃ v : bool, is_header_value 0x0A = Ok v.
Proof.
  apply (classifiers_total_on_bytes "HEADER_VALUE_MAP" is_header_value);
    [reflexivity | lia].
Defined.

(** The error branch that the byte precondition rules out: off the byte
    domain the membership test of every registered classifier raises. *)
Lemma classifiers_raise_off_bytes name func b :
  GENERATORS !! name = Some func → ¬ 0 ≤ b ≤ 255 → func b = Raise ValueError.
Proof.
  intros Hreg Hb.
  assert (∀ lo hi, 0 ≤ lo → hi ≤ 255 → between lo b hi = false) as Hout.
  { intros lo hi Hlo Hhi. unfold between.
    destruct (Z.leb_spec lo b), (Z.leb_spec b hi); simpl; try done. lia. }
  destruct (GENERATORS_lookup _ _ Hreg) as
    [[_ ->]|[[_ ->]|[[_ ->]|[_ ->]]]];
    unfold is_token, is_request_uri, is_reason_phrase, is_header_value,
      is_TEXT_UTF8char, is_UTF8_NONASCII, is_UTF8_CONT, is_LWS, is_alphanum;
    rewrite !Hout by (by vm_compute); simpl;
    by rewrite contains_out_of_range.
Qed.

(** C10: on CR (0x0D) and LF (0x0A) the token, request-URI and
    reason-phrase classifiers return false and the header-value classifier
    returns true. *)
Theorem line_breaks_only_in_header_value :
  (is_token 0x0D = Ok false ∧ is_request_uri 0x0D = Ok false ∧
   is_reason_phrase 0x0D = Ok false ∧ is_header_value 0x0D = Ok true) ∧
  (is_token 0x0A = Ok false ∧ is_request_uri 0x0A = Ok false ∧
   is_reason_phrase 0x0A = Ok false ∧ is_header_value 0x0A = Ok true).
Proof. repeat split; reflexivity. Qed.

(** * The emitter *)

(** ** Strings *)

Lemma string_app_nil_l (s : string) : "" +:+ s = s.
Proof. reflexivity. Qed.

Lemma string_app_cons (a : ascii) (s t : string) :
  String a s +:+ t = String a (s +:+ t).
Proof. reflexivity. Qed.

Lemma string_app_assoc (s t u : string) : (s +:+ t) +:+ u = s +:+ t +:+ u.
Proof.
  induction s as [|a s IH]; [done |]. by rewrite !string_app_cons, IH.
Qed.

Lemma string_app_nil_r (s : string) : s +:+ "" = s.
Proof.
  induction s as [|a s IH]; [done |]. by rewrite string_app_cons, IH.
Qed.

(** ** What a run prints *)

Lemma value_of_Ok func i : (∃ v, func i = Ok v) → func i = Ok (value_of func i).
Proof. intros [v Hv]. unfold value_of. by rewrite Hv. Qed.

Lemma emit_entry_Ok func align i out :
  align ≠ 0 → (∃ v, func i = Ok v) →
  emit_entry func align i out =
  (Ok tt, out +:+ row_break align i +:+ cell (value_of func i)).
Proof.
  intros Halign Hv. apply value_of_Ok in Hv.
  unfold emit_entry, py_mod, row_break, mbind, IO_bind, lift, print, mret, IO_ret.
  apply Z.eqb_neq in Halign. rewrite Halign, Hv.
  destruct (i mod align =? 0); unfold cell;
    by rewrite ?string_app_nil_r, ?string_app_assoc.
Qed.

Lemma for_each_emit_Ok func align indices out :
  align ≠ 0 → Forall (λ i, ∃ v, func i = Ok v) indices →
  for_each indices (emit_entry func align) out =
  (Ok tt, out +:+ loop_text align (value_of func) indices).
Proof.
  intros Halign Hall. revert out.
  induction Hall as [|i indices Hi _ IH]; intros out; simpl.
  - by rewrite string_app_nil_r.
  - unfold mbind, IO_bind. rewrite emit_entry_Ok by done.
    rewrite IH. by rewrite !string_app_assoc.
Qed.

Lemma format_Ok count shown :
  decimal_digits count ≤ MAX_STR_DIGITS → format count shown = Ok shown.
Proof.
  intros Hdigits. unfold format.
  by destruct (Z.ltb_spec MAX_STR_DIGITS (decimal_digits count)); [lia |].
Qed.

Lemma format_Raise count shown :
  MAX_STR_DIGITS < decimal_digits count → format count shown = Raise ValueError.
Proof.
  intros Hdigits. unfold format.
  by destruct (Z.ltb_spec MAX_STR_DIGITS (decimal_digits count)); [| lia].
Qed.

(** The domain sizes of the byte tables are far below the limit. *)
Lemma decimal_digits_small count :
  0 ≤ count ≤ 256 → decimal_digits count ≤ MAX_STR_DIGITS.
Proof.
  intros Hcount.
  assert (Forall (λ c, decimal_digits c ≤ MAX_STR_DIGITS) (seqZ 0 257)) as Hall
    by (apply (bool_decide_unpack _); by vm_compute).
  rewrite Forall_seqZ in Hall. apply Hall. lia.
Qed.

Lemma generate_lookup_table_Ok name func n count shown align out :
  isinstance_int n = Some (count, shown) →
  decimal_digits count ≤ MAX_STR_DIGITS → align ≠ 0 →
  (∀ i, 0 ≤ i < count → ∃ v, func i = Ok v) →
  generate_lookup_table name func n align out =
  (Ok tt, out +:+ FIRST_LINE name shown
          +:+ table_text align (value_of func) count).
Proof.
  intros Hn Hdigits Halign Htotal. unfold generate_lookup_table.
  rewrite Hn, format_Ok by done.
  unfold mbind, IO_bind, lift, print at 1.
  rewrite for_each_emit_Ok; [| done |].
  - unfold print, table_text. by rewrite !string_app_nil_r, !string_app_assoc.
  - apply Forall_forall. intros i Hi. apply Htotal.
    unfold range in Hi. apply elem_of_seqZ in Hi. lia.
Qed.

(** ** What is printed does not depend on what was printed before *)

Lemma framed_ret {A} (a : A) : framed (mret a : IO A).
Proof. intros out. unfold mret, IO_ret; simpl. by rewrite string_app_nil_r. Qed.

Lemma framed_raise {A} e : framed (raise e : IO A).
Proof. intros out. unfold raise; simpl. by rewrite string_app_nil_r. Qed.

Lemma framed_lift {A} (r : result A) : framed (lift r).
Proof. intros out. unfold lift; simpl. by rewrite string_app_nil_r. Qed.

Lemma framed_print s e : framed (print s e).
Proof. intros out. unfold print; simpl. by rewrite string_app_nil_l. Qed.

Lemma framed_bind {A B} (m : IO A) (f : A → IO B) :
  framed m → (∀ a, framed (f a)) → framed (m ≫= f).
Proof.
  intros Hm Hf out. unfold mbind, IO_bind.
  rewrite (Hm out). destruct (m "") as [[a|e] text]; simpl.
  - rewrite (Hf a (out +:+ text)), (Hf a text).
    simpl. by rewrite string_app_assoc.
  - done.
Qed.

Lemma framed_for_each {A} (xs : list A) (body : A → IO unit) :
  (∀ x, framed (body x)) → framed (for_each xs body).
Proof.
  intros Hbody. induction xs as [|x xs IH]; simpl.
  - apply framed_ret.
  - apply framed_bind; auto.
Qed.

Lemma framed_emit_entry func align i : framed (emit_entry func align i).
Proof.
  unfold emit_entry.
  repeat (apply framed_bind || intros ? || case_match ||
          apply framed_lift || apply framed_print || apply framed_ret).
Qed.

Lemma framed_generate_lookup_table name func n align :
  framed (generate_lookup_table name func n align).
Proof.
  unfold generate_lookup_table.
  destruct (isinstance_int n) as [[count shown]|]; [| apply framed_raise].
  apply framed_bind; [apply framed_lift | intros text].
  repeat (apply framed_bind; [| intros _]); try apply framed_print.
  apply framed_for_each, framed_emit_entry.
Qed.

Lemma framed_getitem arg : framed (getitem arg).
Proof.
  unfold getitem. destruct (GENERATORS !! arg);
    [apply framed_ret | apply framed_raise].
Qed.

Lemma framed_main args : framed (main args).
Proof.
  induction args as [|arg rest IH]; simpl; [apply framed_ret |].
  apply framed_bind; [apply framed_getitem | intros func].
  apply framed_bind; [apply framed_generate_lookup_table | by intros _].
Qed.

(** C9: the text a table generation emits is a function of the name, the
    classifier, the domain size and the row width alone: two invocations,
    whatever was printed before each, end the same way and append the same
    bytes.  The same holds of a whole request. *)
Theorem generation_deterministic :
  (∀ name func n align out1 out2, ∃ res artifact,
     generate_lookup_table name func n align out1 = (res, out1 +:+ artifact) ∧
     generate_lookup_table name func n align out2 = (res, out2 +:+ artifact)) ∧
  (∀ args out1 out2, ∃ res artifacts,
     main args out1 = (res, out1 +:+ artifacts) ∧
     main args out2 = (res, out2 +:+ artifacts)).
Proof.
  split.
  - intros name func n align out1 out2.
    eexists _, _. split; apply framed_generate_lookup_table.
  - intros args out1 out2. eexists _, _. split; apply framed_main.
Qed.

(** ** The domain size *)

Lemma range_nonpositive count : count ≤ 0 → range count = [].
Proof.
  intros Hc. unfold range, seqZ.
  replace (Z.to_nat count) with 0%nat by lia. done.
Qed.

(** The statement of C5 fails at the integer 0: the request is accepted
    and an empty table is written. *)
Lemma empty_table_for_zero :
  generate_lookup_table "TOKEN_MAP" is_token (PyInt 0) 16 "" =
    (Ok tt, "static TOKEN_MAP: [bool; 0] = byte_map![" +:+ nl +:+ "];"
            +:+ nl +:+ nl) ∧
  ¬ ∃ e, generate_lookup_table "TOKEN_MAP" is_token (PyInt 0) 16 "" =
         (Raise e, "").
Proof. split; [reflexivity |]. intros [e He]. vm_compute in He. discriminate. Qed.

(** C5, amended: a domain size that is not an instance of [int] is
    rejected by the assertion before anything is printed or classified.
    An integer [N <= 0] of at most [MAX_STR_DIGITS] decimal digits is
    accepted: no classifier call is made, and the declaration of an empty
    table is written.  An integer [N <= 0] of more digits is rejected with
    [ValueError] when the first line is formatted, nothing being printed
    or classified. *)
Theorem invalid_domain_size : ∀ name func n align out,
  (isinstance_int n = None →
   generate_lookup_table name func n align out = (Raise AssertionError, out)) ∧
  (∀ count shown, isinstance_int n = Some (count, shown) → count ≤ 0 →
   (decimal_digits count ≤ MAX_STR_DIGITS →
    generate_lookup_table name func n align out =
    (Ok tt, out +:+ FIRST_LINE name shown +:+ nl +:+ LAST_LINE +:+ nl +:+ nl)) ∧
   (MAX_STR_DIGITS < decimal_digits count →
    generate_lookup_table name func n align out = (Raise ValueError, out))).
Proof.
  intros name func n align out. unfold generate_lookup_table. split.
  - by intros ->.
  - intros count shown -> Hcount. split; intros Hdigits.
    + rewrite range_nonpositive, format_Ok by done.
      unfold mbind, IO_bind, lift, print; simpl.
      by rewrite !string_app_nil_r, !string_app_assoc.
    + by rewrite format_Raise by done.
Qed.

Lemma invalid_domain_size_witness :
  generate_lookup_table "T" (λ _, Raise ValueError) (PyFloat 5 (-1)) 16 "" =
    (Raise AssertionError, "") ∧
  generate_lookup_table "T" (λ _, Raise ValueError) (PyInt (-3)) 0 "" =
    (Ok tt, "" +:+ FIRST_LINE "T" "-3" +:+ nl +:+ LAST_LINE +:+ nl +:+ nl) ∧
  generate_lookup_table "T" (λ _, Raise ValueError)
      (PyInt (- (10 ^ 4300 - 1))) 16 "" =
    (Ok tt, "" +:+ FIRST_LINE "T" (str_int (- (10 ^ 4300 - 1)))
            +:+ nl +:+ LAST_LINE +:+ nl +:+ nl) ∧
  generate_lookup_table "T" (λ _, Ok true) (PyInt (- 10 ^ 4300)) 16 "" =
    (Raise ValueError, "").
Proof.
  split; [| split; [| split]].
  - apply (proj1 (invalid_domain_size "T" _ (PyFloat 5 (-1)) 16 "")).
    reflexivity.
  - apply (proj2 (invalid_domain_size "T" _ (PyInt (-3)) 0 "") (-3) "-3");
      [reflexivity | lia | by vm_compute].
  - apply (proj2 (invalid_domain_size "T" _ (PyInt (- (10 ^ 4300 - 1))) 16 "")
             (- (10 ^ 4300 - 1)) (str_int (- (10 ^ 4300 - 1))));
      [reflexivity | by vm_compute | by vm_compute].
  - apply (proj2 (invalid_domain_size "T" _ (PyInt (- 10 ^ 4300)) 16 "")
             (- 10 ^ 4300) (str_int (- 10 ^ 4300)));
      [reflexivity | by vm_compute | by vm_compute].
Defined.

(** ** Requests *)

Lemma main_cons_registered name rest out :
  is_Some (GENERATORS !! name) →
  main (name :: rest) out = main rest (out +:+ artifact name).
Proof.
  intros [func Hfunc]. simpl.
  unfold mbind, IO_bind, getitem, artifact. rewrite Hfunc.
  unfold mret, IO_ret.
  rewrite (generate_lookup_table_Ok _ _ _ 256 "256");
    [done | done | by vm_compute | done
    | intros i Hi; eapply registered_total; [done | lia]].
Qed.

Lemma main_app names rest out :
  Forall (λ name, is_Some (GENERATORS !! name)) names →
  main (names ++ rest) out = main rest (out +:+ artifacts names).
Proof.
  intros Hall. revert out.
  induction Hall as [|name names Hname _ IH]; intros out.
  - simpl. by rewrite string_app_nil_r.
  - rewrite <- app_comm_cons, main_cons_registered, IH by done.
    simpl. by rewrite string_app_assoc.
Qed.

Lemma main_registered names out :
  Forall (λ name, is_Some (GENERATORS !! name)) names →
  main names out = (Ok tt, out +:+ artifacts names).
Proof.
  intros Hall. rewrite <- (app_nil_r names) at 1. by rewrite main_app.
Qed.

Lemma main_unknown_first unknown rest out :
  GENERATORS !! unknown = None →
  main (unknown :: rest) out = (Raise (KeyError unknown), out).
Proof. intros Hnone. simpl. unfold mbind, IO_bind, getitem. by rewrite Hnone. Qed.

Lemma artifact_nonempty name : is_Some (GENERATORS !! name) → artifact name ≠ "".
Proof. intros [func Hfunc]. unfold artifact. by rewrite Hfunc. Qed.

(** The statement of C4 fails when a registered name precedes the unknown
    one: its table has been printed when the lookup fails. *)
Lemma table_written_before_unknown_name :
  main ["TOKEN_MAP"; "BOGUS_MAP"] "" =
    (Raise (KeyError "BOGUS_MAP"), artifact "TOKEN_MAP") ∧
  artifact "TOKEN_MAP" ≠ "" ∧
  ¬ ∃ e, main ["TOKEN_MAP"; "BOGUS_MAP"] "" = (Raise e, "").
Proof.
  assert (main ["TOKEN_MAP"; "BOGUS_MAP"] "" =
          (Raise (KeyError "BOGUS_MAP"), artifact "TOKEN_MAP")) as Hrun
    by (by vm_compute).
  assert (artifact "TOKEN_MAP" ≠ "") as Hne by (by vm_compute).
  split; [done |]. split; [done |].
  intros [e He]. rewrite Hrun in He. congruence.
Qed.

(** C4, amended: a request with an unregistered name fails with
    [KeyError] at the first such name; nothing is printed for that name
    or for the names after it, yet the complete tables of the names
    before it have been printed, so that nothing at all is written only
    when the unknown name comes first. *)
Theorem unknown_name_fails_request : ∀ before unknown after out,
  Forall (λ name, is_Some (GENERATORS !! name)) before →
  GENERATORS !! unknown = None →
  main before out = (Ok tt, out +:+ artifacts before) ∧
  main (before ++ unknown :: after) out =
    (Raise (KeyError unknown), out +:+ artifacts before) ∧
  (artifacts before = "" ↔ before = []).
Proof.
  intros before unknown after out Hbefore Hunknown.
  split; [by apply main_registered |]. split.
  - rewrite main_app by done. by apply main_unknown_first.
  - split; [| by intros ->].
    destruct Hbefore as [|name names Hname _]; [done |].
    simpl. intros Hempty. apply artifact_nonempty in Hname.
    by destruct (artifact name).
Qed.

Lemma unknown_name_fails_request_witness :
  main ["HEADER_VALUE_MAP"; "BOGUS_MAP"; "TOKEN_MAP"] "" =
    (Raise (KeyError "BOGUS_MAP"), "" +:+ artifacts ["HEADER_VALUE_MAP"]).
Proof.
  apply (unknown_name_fails_request
           ["HEADER_VALUE_MAP"] "BOGUS_MAP" ["TOKEN_MAP"] "").
  - constructor; [by eexists | constructor].
  - reflexivity.
Defined.

(** ** Splitting the emitted text *)

Lemma occurs_cons c a s : occurs c (String a s) = Ascii.eqb a c || occurs c s.
Proof. reflexivity. Qed.

Lemma split_on_sep c s : split_on c (String c s) = "" :: split_on c s.
Proof. simpl. by rewrite Ascii.eqb_refl. Qed.

Lemma split_on_app_sep c s t :
  occurs c s = false → split_on c (s +:+ String c t) = s :: split_on c t.
Proof.
  intros Hfree. induction s as [|a s IH]; [apply split_on_sep |].
  rewrite occurs_cons in Hfree. apply orb_false_iff in Hfree as [Ha Hs].
  rewrite string_app_cons. simpl. by rewrite Ha, (IH Hs).
Qed.

Lemma split_on_free c s : occurs c s = false → split_on c s = [s].
Proof.
  intros Hfree. induction s as [|a s IH]; [done |].
  rewrite occurs_cons in Hfree. apply orb_false_iff in Hfree as [Ha Hs].
  simpl. by rewrite Ha, (IH Hs).
Qed.

Lemma occurs_app c s t : occurs c (s +:+ t) = occurs c s || occurs c t.
Proof.
  induction s as [|a s IH]; [done |].
  rewrite string_app_cons. simpl. by rewrite IH, orb_assoc.
Qed.

(** ** Rows *)

Lemma cell_cases v : cell v = (if v then " 1," else " 0,").
Proof. by destruct v. Qed.

Lemma cells_cons vals i indices :
  cells vals (i :: indices) = cell (vals i) +:+ cells vals indices.
Proof. reflexivity. Qed.

Lemma occurs_cells c vals indices :
  c ≠ " "%char → c ≠ "0"%char → c ≠ "1"%char → c ≠ ","%char →
  occurs c (cells vals indices) = false.
Proof.
  intros H1 H2 H3 H4. induction indices as [|i indices IH]; [done |].
  rewrite cells_cons, occurs_app, IH, cell_cases.
  apply Ascii.eqb_neq in H1, H2, H3, H4.
  destruct (vals i); rewrite !occurs_cons;
    rewrite ?(Ascii.eqb_sym _ c), ?H1, ?H2, ?H3, ?H4; done.
Qed.

Lemma occurs_row_text vals span : occurs "010" (row_text vals span) = false.
Proof.
  unfold row_text. rewrite occurs_app, occurs_cells by done. done.
Qed.

Lemma row_text_not_last_line vals span : row_text vals span ≠ LAST_LINE.
Proof. unfold row_text. by rewrite !string_app_cons. Qed.

Lemma lstrip_blank_app blank s :
  lstrip blank = "" → lstrip (blank +:+ s) = lstrip s.
Proof.
  induction blank as [|a blank IH]; [done |].
  rewrite string_app_cons. simpl.
  destruct a as [[] [] [] [] [] [] [] []]; try done.
Qed.

(** Reading a row back gives the flags of its span. *)
Lemma split_cells vals indices blank :
  occurs "," blank = false → lstrip blank = "" →
  omap read_entry (split_on "," (blank +:+ cells vals indices)) =
  (λ i, flag (vals i)) <$> indices.
Proof.
  revert blank. induction indices as [|i indices IH]; intros blank Hfree Hblank.
  - simpl. rewrite string_app_nil_r, split_on_free by done.
    simpl. unfold read_entry. by rewrite Hblank.
  - rewrite cells_cons, cell_cases.
    assert (∃ d, (if vals i then " 1," else " 0,") = String " " d +:+ ","
                 ∧ occurs "," d = false ∧ read_entry d = Some (flag (vals i)))
      as (d & -> & Hd & Hread)
      by (destruct (vals i); [by exists "1" | by exists "0"]).
    rewrite string_app_assoc, <- (string_app_assoc blank).
    change ("," +:+ cells vals indices)
      with (String "," ("" +:+ cells vals indices)).
    rewrite split_on_app_sep by (by rewrite occurs_app, Hfree).
    rewrite fmap_cons. simpl. rewrite IH by done.
    unfold read_entry at 1. rewrite lstrip_blank_app by done.
    change (lstrip (String " " d)) with (lstrip d).
    unfold read_entry in Hread. by rewrite Hread.
Qed.

Lemma row_entries_row_text vals span :
  row_entries (row_text vals span) =
  (λ i, flag (vals i)) <$> span_indices span.
Proof. unfold row_entries, row_text. by apply split_cells. Qed.

Lemma loop_text_app align vals l1 l2 :
  loop_text align vals (l1 ++ l2) =
  loop_text align vals l1 +:+ loop_text align vals l2.
Proof.
  induction l1 as [|i l1 IH]; [done |].
  rewrite <- app_comm_cons. unfold loop_text in *. simpl.
  by rewrite IH, !string_app_assoc.
Qed.

Lemma loop_text_unbroken align vals indices :
  Forall (λ i, i mod align ≠ 0) indices →
  loop_text align vals indices = cells vals indices.
Proof.
  induction 1 as [|i indices Hi _ IH]; [done |].
  rewrite cells_cons, <- IH. unfold loop_text, row_break. simpl.
  apply Z.eqb_neq in Hi. by rewrite Hi.
Qed.

(** ** The lines of a table *)

Lemma nl_app s : nl +:+ s = String "010" s.
Proof. reflexivity. Qed.

Lemma rows_text_body rows rest :
  rows_text rows +:+ nl +:+ rest = nl +:+ rows_body rows rest.
Proof.
  induction rows as [|row rows IH]; [done |].
  unfold rows_text, rows_body in *. simpl.
  by rewrite !string_app_assoc, IH.
Qed.

Lemma lines_rows_body rows rest :
  Forall (λ row, occurs "010" row = false) rows →
  lines (rows_body rows rest) = (rows ++ lines rest)%list.
Proof.
  induction 1 as [|row rows Hrow _ IH]; [done |].
  unfold rows_body in *. simpl. rewrite nl_app.
  unfold lines in *. by rewrite split_on_app_sep, IH.
Qed.

Lemma until_last_line_rows rows rest :
  Forall (λ row, row ≠ LAST_LINE) rows →
  until_last_line (rows ++ LAST_LINE :: rest)%list = rows.
Proof.
  induction 1 as [|row rows Hrow _ IH]; [done |].
  simpl. apply String.eqb_neq in Hrow. by rewrite Hrow, IH.
Qed.

(** ** The rows of a table of a given width *)

Section Rows.
  Variable width : Z.
  Hypothesis Hwidth : 0 < width.
  Variable vals : Z → bool.

Lemma loop_text_span k len :
  0 < len ≤ width →
  loop_text width vals (seqZ (k * width) len) =
  nl +:+ row_text vals (k * width, len).
Proof.
  intros Hlen. unfold row_text, span_indices. simpl.
  rewrite seqZ_cons by lia. rewrite cells_cons.
  change (loop_text width vals (?i :: ?l))
    with (row_break width i +:+ cell (vals i) +:+ loop_text width vals l).
  rewrite loop_text_unbroken.
  - unfold row_break. rewrite Z.mod_mul by lia. simpl.
    by rewrite !string_app_assoc.
  - apply Forall_seqZ. intros i Hi Hmod.
    apply Z.mod_divide in Hmod as [q Hq]; [| lia]. subst i.
    assert (k < q) by nia. assert (q < k + 1) by nia. lia.
Qed.

Lemma loop_text_spans spans :
  Forall (aligned width) spans →
  loop_text width vals (concat (span_indices <$> spans)) =
  rows_text (row_text vals <$> spans).
Proof.
  induction 1 as [|[a len] spans [[k Hk] Hlen] _ IH]; [done |].
  simpl in Hk, Hlen. subst a.
  rewrite !fmap_cons, concat_cons, loop_text_app, IH.
  unfold span_indices at 1. simpl.
  rewrite loop_text_span by done. by rewrite !string_app_assoc.
Qed.

Lemma full_rows_indices (rows : nat) :
  concat (span_indices <$> ((λ k, (k * width, width)) <$> seqZ 0 (Z.of_nat rows)))
  = seqZ 0 (Z.of_nat rows * width).
Proof.
  induction rows as [|rows IH]; [done |].
  rewrite seqZ_S, !fmap_app, concat_app, IH. simpl.
  unfold span_indices; simpl. rewrite app_nil_r.
  replace (Z.of_nat (S rows) * width) with (Z.of_nat rows * width + width) by lia.
  rewrite seqZ_app by nia. done.
Qed.

Lemma row_spans_indices count :
  0 ≤ count →
  concat (span_indices <$> row_spans width count) = range count.
Proof.
  intros Hcount. unfold row_spans, range.
  pose proof (Z.div_pos count width Hcount Hwidth) as Hq.
  pose proof (Z.mod_pos_bound count width Hwidth) as Hr.
  rewrite fmap_app, concat_app.
  rewrite <- (Z2Nat.id (count / width)) at 1 by done.
  rewrite full_rows_indices, Z2Nat.id by done.
  replace (seqZ 0 count)
    with (seqZ 0 (count / width * width + count mod width))
    by (f_equal; pose proof (Z.div_mod count width); lia).
  rewrite seqZ_app by nia. f_equal.
  destruct (Z.eqb_spec (count mod width) 0) as [-> | Hne]; [done |].
  simpl. unfold span_indices; simpl. by rewrite app_nil_r.
Qed.

Lemma row_spans_aligned count :
  0 ≤ count → Forall (aligned width) (row_spans width count).
Proof.
  intros Hcount. unfold row_spans. apply Forall_app. split.
  - apply Forall_fmap, Forall_forall. intros k _. split; simpl; [eauto | lia].
  - pose proof (Z.mod_pos_bound count width Hwidth) as Hr.
    destruct (Z.eqb_spec (count mod width) 0); constructor; [| done].
    split; simpl; [eauto | lia].
Qed.

Lemma length_row_spans count :
  0 ≤ count →
  Z.of_nat (length (row_spans width count)) = (count + width - 1) / width.
Proof.
  intros Hcount. unfold row_spans.
  pose proof (Z.div_pos count width Hcount Hwidth) as Hq.
  pose proof (Z.mod_pos_bound count width Hwidth) as Hr.
  pose proof (Z.div_mod count width ltac:(lia)) as Hdm.
  rewrite length_app, length_fmap, length_seqZ.
  destruct (Z.eqb_spec (count mod width) 0) as [H0 | Hne]; simpl.
  - rewrite Nat.add_0_r, Z2Nat.id by done.
    apply (Z.div_unique _ _ _ (width - 1)); lia.
  - rewrite Nat2Z.inj_add, Z2Nat.id by done.
    apply (Z.div_unique _ _ _ (count mod width - 1)); lia.
Qed.

Lemma lookup_row_spans count (k : nat) span :
  0 ≤ count →
  row_spans width count !! k = Some span →
  span.1 = Z.of_nat k * width ∧
  span.2 = Z.min width (count - Z.of_nat k * width).
Proof.
  intros Hcount. unfold row_spans.
  pose proof (Z.div_pos count width Hcount Hwidth) as Hq.
  pose proof (Z.mod_pos_bound count width Hwidth) as Hr.
  pose proof (Z.div_mod count width ltac:(lia)) as Hdm.
  rewrite lookup_app_Some, length_fmap, length_seqZ.
  intros [Hfull | [Hk Hlast]].
  - apply list_lookup_fmap_Some in Hfull as (i & -> & Hi).
    apply lookup_seqZ in Hi as [-> Hi]. simpl. split; [lia | nia].
  - destruct (Z.eqb_spec (count mod width) 0) as [H0 | Hne]; [done |].
    apply list_lookup_singleton_Some in Hlast as [Hk0 <-]. simpl.
    assert (Z.of_nat k = count / width) as -> by lia. split; [done | lia].
Qed.

Lemma table_rows_table_text count :
  0 ≤ count →
  table_rows (table_text width vals count) =
  row_text vals <$> row_spans width count.
Proof.
  intros Hcount. unfold table_text, table_rows.
  rewrite <- (row_spans_indices count) by done.
  rewrite loop_text_spans by auto using row_spans_aligned.
  rewrite rows_text_body, nl_app.
  change (lines (String "010" ?s)) with ("" :: lines s).
  rewrite lines_rows_body.
  - apply until_last_line_rows, Forall_fmap, Forall_forall.
    intros span _. apply row_text_not_last_line.
  - apply Forall_fmap, Forall_forall. intros span _. apply occurs_row_text.
Qed.

Lemma table_entries_table_text count :
  0 ≤ count →
  table_entries (table_text width vals count) =
  (λ i, flag (vals i)) <$> range count.
Proof.
  intros Hcount. unfold table_entries.
  rewrite table_rows_table_text by done.
  rewrite <- (row_spans_indices count) by done.
  generalize (row_spans width count). intros spans.
  induction spans as [|span spans IH]; [done |].
  rewrite !fmap_cons, !concat_cons, fmap_app, IH.
  by rewrite row_entries_row_text.
Qed.

Lemma row_of_table_text count (k : nat) row :
  0 ≤ count →
  table_rows (table_text width vals count) !! k = Some row →
  row_entries row =
  (λ i, flag (vals i)) <$>
    seqZ (Z.of_nat k * width) (Z.min width (count - Z.of_nat k * width)).
Proof.
  intros Hcount. rewrite table_rows_table_text by done.
  intros Hrow. apply list_lookup_fmap_Some in Hrow as (span & -> & Hspan).
  apply lookup_row_spans in Hspan as [H1 H2]; [| done].
  rewrite row_entries_row_text. unfold span_indices. by rewrite H1, H2.
Qed.

End Rows.

(** C7: for a positive row width [W] and a positive entry count [N] that
    the first line can show (at most [MAX_STR_DIGITS] decimal digits),
    with the classifier returning on every index below [N], the artifact
    has its [N] entries in exactly ceil(N / W) rows; every row but the
    last holds [W] entries and the last holds the remaining ones
    ([N mod W] when [W] does not divide [N]). *)
Theorem row_grouping : ∀ name func n count shown width out,
  isinstance_int n = Some (count, shown) → 0 < count →
  decimal_digits count ≤ MAX_STR_DIGITS → 0 < width →
  (∀ i, 0 ≤ i < count → ∃ v, func i = Ok v) →
  ∃ table,
    generate_lookup_table name func n width out =
      (Ok tt, out +:+ FIRST_LINE name shown +:+ table) ∧
    let rows := table_rows table in
    let size row := Z.of_nat (length (row_entries row)) in
    Z.of_nat (length (table_entries table)) = count ∧
    Z.of_nat (length rows) = (count + width - 1) / width ∧
    (Z.of_nat (length rows) - 1) * width < count ≤ Z.of_nat (length rows) * width ∧
    (∀ k row, rows !! k = Some row → (S k < length rows)%nat → size row = width) ∧
    (∀ row, last rows = Some row →
       size row = if count mod width =? 0 then width else count mod width).
Proof.
  intros name func n count shown width out Hn Hcount Hdigits Hwidth Htotal.
  exists (table_text width (value_of func) count).
  split; [apply generate_lookup_table_Ok; [done | done | lia | done] |].
  assert (0 ≤ count) as Hcount' by lia.
  pose proof (length_row_spans width Hwidth count Hcount') as Hlen.
  pose proof (Z.div_mod count width ltac:(lia)) as Hdm.
  pose proof (Z.mod_pos_bound count width Hwidth) as Hr.
  assert ((count + width - 1) / width =
          count / width + (if count mod width =? 0 then 0 else 1)) as Hceil.
  { symmetry. destruct (Z.eqb_spec (count mod width) 0).
    - apply (Z.div_unique _ _ _ (width - 1)); lia.
    - apply (Z.div_unique _ _ _ (count mod width - 1)); lia. }
  assert (length (table_rows (table_text width (value_of func) count))
          = length (row_spans width count)) as Hrows
    by (by rewrite table_rows_table_text, length_fmap).
  pose proof (Z.div_pos count width Hcount' Hwidth) as Hq.
  assert (1 ≤ (count + width - 1) / width) as Hpos
    by (rewrite Hceil; destruct (Z.eqb_spec (count mod width) 0); nia).
  simpl. rewrite Hrows, Hlen. repeat split.
  - rewrite table_entries_table_text, length_fmap by done.
    unfold range. rewrite length_seqZ. lia.
  - rewrite Hceil. destruct (Z.eqb_spec (count mod width) 0); nia.
  - rewrite Hceil. destruct (Z.eqb_spec (count mod width) 0); nia.
  - intros k row Hrow Hk.
    rewrite (row_of_table_text width Hwidth _ _ _ _ Hcount' Hrow).
    rewrite length_fmap, length_seqZ.
    assert (Z.of_nat k + 1 < (count + width - 1) / width) as Hk' by lia.
    rewrite Hceil in Hk'.
    assert (Z.of_nat k + 1 ≤ count / width) as Hfull
      by (destruct (Z.eqb_spec (count mod width) 0); lia).
    assert ((Z.of_nat k + 1) * width ≤ count) by nia. lia.
  - intros row Hrow. rewrite last_lookup, Hrows in Hrow.
    rewrite (row_of_table_text width Hwidth _ _ _ _ Hcount' Hrow).
    rewrite length_fmap, length_seqZ.
    assert (Z.of_nat (Nat.pred (length (row_spans width count)))
            = (count + width - 1) / width - 1) as -> by lia.
    rewrite Hceil. destruct (Z.eqb_spec (count mod width) 0) as [H0 | Hne].
    + replace ((count / width + 0 - 1) * width) with (count - width) by nia.
      lia.
    + replace ((count / width + 1 - 1) * width)
        with (count - count mod width) by nia.
      lia.
Qed.

Lemma row_grouping_witness :
  ∃ table,
    generate_lookup_table "TOKEN_MAP" is_token (PyInt 35) 16 "" =
      (Ok tt, "" +:+ FIRST_LINE "TOKEN_MAP" "35" +:+ table) ∧
    let rows := table_rows table in
    let size row := Z.of_nat (length (row_entries row)) in
    Z.of_nat (length (table_entries table)) = 35 ∧
    Z.of_nat (length rows) = (35 + 16 - 1) / 16 ∧
    (Z.of_nat (length rows) - 1) * 16 < 35 ≤ Z.of_nat (length rows) * 16 ∧
    (∀ k row, rows !! k = Some row → (S k < length rows)%nat → size row = 16) ∧
    (∀ row, last rows = Some row →
       size row = if 35 mod 16 =? 0 then 16 else 35 mod 16).
Proof.
  apply (row_grouping "TOKEN_MAP" is_token (PyInt 35) 35 "35" 16 "");
    [reflexivity | lia | by vm_compute | lia |].
  intros i Hi. apply (registered_total "TOKEN_MAP"); [reflexivity | lia].
Defined.

(** The statement of C6 fails beyond the byte domain: at [N = 257] the
    token classifier raises on index 256, and the table is cut short
    after 256 entries, without its closing line. *)
Lemma table_cut_short_beyond_bytes :
  GENERATORS !! "TOKEN_MAP" = Some is_token ∧
  (generate_lookup_table "TOKEN_MAP" is_token (PyInt 257) 16 "").1 =
    Raise ValueError ∧
  ¬ ∃ table,
      generate_lookup_table "TOKEN_MAP" is_token (PyInt 257) 16 "" =
        (Ok tt, FIRST_LINE "TOKEN_MAP" "257" +:+ table) ∧
      Z.of_nat (length (table_entries table)) = 257.
Proof.
  assert ((generate_lookup_table "TOKEN_MAP" is_token (PyInt 257) 16 "").1 =
          Raise ValueError) as Hrun by (by vm_compute).
  split; [reflexivity |]. split; [done |].
  intros (table & Hgen & _). rewrite Hgen in Hrun. discriminate.
Qed.

(** C6, amended: for every registered classifier [f] and every positive
    integer [N] up to 256, the size of the byte domain, the generated
    table has exactly [N] entries, and its rows read in order are
    [f(0), f(1), ..., f(N-1)] rendered as 1 for true and 0 for false. *)
Theorem table_complete : ∀ name func n count shown width out,
  GENERATORS !! name = Some func →
  isinstance_int n = Some (count, shown) → 0 < count ≤ 256 → 0 < width →
  ∃ table,
    generate_lookup_table name func n width out =
      (Ok tt, out +:+ FIRST_LINE name shown +:+ table) ∧
    Z.of_nat (length (table_entries table)) = count ∧
    Ok <$> table_entries table = entry func <$> range count ∧
    (∀ i, 0 ≤ i < count →
       Ok <$> table_entries table !! Z.to_nat i = Some (entry func i)).
Proof.
  intros name func n count shown width out Hreg Hn Hcount Hwidth.
  assert (∀ i, 0 ≤ i < count → ∃ v, func i = Ok v) as Htotal
    by (intros i Hi; eapply registered_total; [done | lia]).
  exists (table_text width (value_of func) count).
  split; [apply generate_lookup_table_Ok;
            [done | apply decimal_digits_small; lia | lia | done] |].
  rewrite table_entries_table_text by lia.
  assert (Ok <$> ((λ i, flag (value_of func i)) <$> range count)
          = entry func <$> range count) as Hentries.
  { rewrite <- list_fmap_compose. apply Forall_fmap_ext_1, Forall_seqZ.
    intros i Hi. unfold entry. simpl.
    by rewrite (value_of_Ok func i) by (apply Htotal; lia). }
  split; [| split; [done |]].
  - unfold range. rewrite length_fmap, length_seqZ. lia.
  - intros i Hi. rewrite list_lookup_fmap. unfold range.
    rewrite lookup_seqZ_lt by lia. simpl.
    rewrite Z2Nat.id by lia. unfold entry.
    by rewrite (value_of_Ok func i) by (apply Htotal; lia).
Qed.

Lemma table_complete_witness :
  ∃ table,
    generate_lookup_table "HEADER_VALUE_MAP" is_header_value (PyInt 256) 16 "" =
      (Ok tt, "" +:+ FIRST_LINE "HEADER_VALUE_MAP" "256" +:+ table) ∧
    Z.of_nat (length (table_entries table)) = 256 ∧
    Ok <$> table_entries table = entry is_header_value <$> range 256 ∧
    (∀ i, 0 ≤ i < 256 →
       Ok <$> table_entries table !! Z.to_nat i = Some (entry is_header_value i)).
Proof.
  apply (table_complete "HEADER_VALUE_MAP" is_header_value (PyInt 256) 256 "256"
           16 ""); [reflexivity | reflexivity | lia | lia].
Defined.

(** The end-to-end scenarios: the tables [main] prints, read back. *)
Example token_map_table :
  let table := table_entries (main ["TOKEN_MAP"] "").2 in
  table !! Z.to_nat (ord "A") = Some 1 ∧
  table !! Z.to_nat (ord " ") = Some 0 ∧
  table !! Z.to_nat (ord "-") = Some 1 ∧ length table = 256%nat.
Proof. by vm_compute. Qed.

Example reason_phrase_map_table :
  let table := table_entries (main ["REASON_PHRASE_MAP"] "").2 in
  table !! Z.to_nat 0xFF = Some 1 ∧ table !! Z.to_nat 0x09 = Some 1 ∧
  table !! Z.to_nat 0x00 = Some 0.
Proof. by vm_compute. Qed.

Example bogus_map_request :
  main ["BOGUS_MAP"] "" = (Raise (KeyError "BOGUS_MAP"), "").
Proof. reflexivity. Qed.

(** * Further properties of the classifiers *)

(** A property of the bytes that every integer off the bytes satisfies too
    holds of every integer. *)
Lemma forall_integers (P : Z → Prop) {Hdec : ∀ b, Decision (P b)} :
  bool_decide (Forall P (range 256)) = true →
  (∀ b, ¬ 0 ≤ b ≤ 255 → P b) → ∀ b, P b.
Proof.
  intros Hbytes Hoff b.
  destruct (decide (0 ≤ b ≤ 255));
    [by apply (@forall_bytes P Hdec) | by apply Hoff].
Qed.

Lemma registered_off_bytes b :
  ¬ 0 ≤ b ≤ 255 →
  is_token b = Raise ValueError ∧ is_request_uri b = Raise ValueError ∧
  is_reason_phrase b = Raise ValueError ∧ is_header_value b = Raise ValueError.
Proof.
  intros Hb. repeat split.
  - by apply (classifiers_raise_off_bytes "TOKEN_MAP").
  - by apply (classifiers_raise_off_bytes "REQUEST_URI_MAP").
  - by apply (classifiers_raise_off_bytes "REASON_PHRASE_MAP").
  - by apply (classifiers_raise_off_bytes "HEADER_VALUE_MAP").
Qed.

(** X1: over the bytes, the request-URI classifier yields 1 if and only if
    the byte is alphanumeric or one of
    ! $ % & ' ( ) * + , - . / : ; = ? @ _ ~, and 0 on every other byte. *)
Theorem request_uri_map_bytes : ∀ b, 0 ≤ b ≤ 255 →
  let member :=
    (ord "a" ≤ b ≤ ord "z" ∨ ord "A" ≤ b ≤ ord "Z" ∨ ord "0" ≤ b ≤ ord "9") ∨
    b ∈ ord <$> ["!"; "$"; "%"; "&"; "'"; "("; ")"; "*"; "+"; ","; "-"; ".";
                 "/"; ":"; ";"; "="; "?"; "@"; "_"; "~"]%char in
  (entry is_request_uri b = Ok 1 ↔ member) ∧
  (entry is_request_uri b = Ok 0 ↔ ¬ member).
Proof.
  intros b Hb member.
  assert (∃ v, is_request_uri b = Ok v ∧ (v = true ↔ member))
    as (v & Hv & Hiff).
  { unfold is_request_uri.
    rewrite is_alphanum_Ok, contains_byte, py_or_Ok by done.
    eexists; split; [done |]. subst member.
    rewrite !orb_true_iff, !between_spec, existsb_eqb_elem_of. tauto. }
  rewrite (entry_Ok_1 _ _ _ Hv), (entry_Ok_0 _ _ _ Hv).
  split; [done |]. rewrite <- Hiff. by destruct v.
Qed.

Lemma request_uri_map_bytes_witness :
  0 ≤ ord "@" ≤ 255 ∧
  entry is_request_uri (ord "@") = Ok 1 ∧ entry is_request_uri (ord "`") = Ok 0.
Proof.
  split; [by_computation |]. split.
  - apply (request_uri_map_bytes (ord "@")); by_computation.
  - apply (request_uri_map_bytes (ord "`")); by_computation.
Defined.

Lemma Ok_bool_cases (v : bool) (P : Prop) :
  (v = true ↔ P) → (Ok v = Ok true ↔ P) ∧ (Ok v = Ok false ↔ ¬ P).
Proof.
  intros [HP1 HP2]. destruct v.
  - split; split; intros H; [by apply HP1 | done | done | tauto].
  - split; split; intros H; [done | by specialize (HP2 H) | | done].
    intros HP. by specialize (HP2 HP).
Qed.

(** X2: [is_alphanum] never raises, on any integer: it returns true
    exactly on the ASCII letters and digits and false everywhere else,
    off the byte range included. *)
Theorem is_alphanum_integers : ∀ b,
  let member :=
    ord "a" ≤ b ≤ ord "z" ∨ ord "A" ≤ b ≤ ord "Z" ∨ ord "0" ≤ b ≤ ord "9" in
  (is_alphanum b = Ok true ↔ member) ∧ (is_alphanum b = Ok false ↔ ¬ member).
Proof.
  intros b member. rewrite is_alphanum_Ok. apply Ok_bool_cases.
  subst member. rewrite !orb_true_iff, !between_spec. tauto.
Qed.

Lemma is_UTF8_NONASCII_true b :
  is_UTF8_NONASCII b =
  Ok (between 0xC0 b 0xDF || (between 0xE0 b 0xEF || (between 0xF0 b 0xF7
      || (between 0xF8 b 0xFb || between 0xFC b 0xFD)))).
Proof. unfold is_UTF8_NONASCII. by rewrite !py_or_Ok. Qed.

(** X3: the five lead-byte ranges of [is_UTF8_NONASCII] leave no gap: on
    every integer it returns true exactly on [0xC0, 0xFD], false elsewhere,
    and never raises. *)
Theorem is_UTF8_NONASCII_integers : ∀ b,
  (is_UTF8_NONASCII b = Ok true ↔ 0xC0 ≤ b ≤ 0xFD) ∧
  (is_UTF8_NONASCII b = Ok false ↔ ¬ 0xC0 ≤ b ≤ 0xFD).
Proof.
  intros b. rewrite is_UTF8_NONASCII_true. apply Ok_bool_cases.
  rewrite !orb_true_iff, !between_spec. lia.
Qed.

(** X4: [is_UTF8_CONT] returns true exactly on [0x80, 0xBF] and never
    raises; no integer is both a continuation byte and a lead byte, and
    the two classes together are exactly [0x80, 0xFD]. *)
Theorem utf8_cont_and_lead : ∀ b,
  (is_UTF8_CONT b = Ok true ↔ 0x80 ≤ b ≤ 0xBF) ∧
  (is_UTF8_CONT b = Ok false ↔ ¬ 0x80 ≤ b ≤ 0xBF) ∧
  ¬ (is_UTF8_CONT b = Ok true ∧ is_UTF8_NONASCII b = Ok true) ∧
  (is_UTF8_CONT b = Ok true ∨ is_UTF8_NONASCII b = Ok true ↔ 0x80 ≤ b ≤ 0xFD).
Proof.
  intros b.
  destruct (Ok_bool_cases (between 0x80 b 0xBF) _ (between_spec 0x80 b 0xBF))
    as [Ht Hf].
  assert (is_UTF8_NONASCII b = Ok true ↔ 0xC0 ≤ b ≤ 0xFD) as Hlead.
  { rewrite is_UTF8_NONASCII_true.
    apply (Ok_bool_cases _ (0xC0 ≤ b ≤ 0xFD)).
    rewrite !orb_true_iff, !between_spec. lia. }
  unfold is_UTF8_CONT. rewrite Ht, Hf, Hlead. repeat split; try tauto; lia.
Qed.

(** X5: [is_TEXT_UTF8char] never raises: on every integer it returns true
    exactly on the printable ASCII range [0x21, 0x7E] and on the lead bytes
    [0xC0, 0xFD], and false elsewhere. *)
Theorem is_TEXT_UTF8char_integers : ∀ b,
  (is_TEXT_UTF8char b = Ok true ↔ 0x21 ≤ b ≤ 0x7E ∨ 0xC0 ≤ b ≤ 0xFD) ∧
  (is_TEXT_UTF8char b = Ok false ↔ ¬ (0x21 ≤ b ≤ 0x7E ∨ 0xC0 ≤ b ≤ 0xFD)).
Proof.
  intros b. unfold is_TEXT_UTF8char.
  rewrite is_UTF8_NONASCII_true, py_or_Ok. apply Ok_bool_cases.
  rewrite !orb_true_iff, !between_spec. lia.
Qed.

(** X6: [is_LWS] returns true on SPACE, HTAB, CR and LF and false on every
    other byte; on an integer off the bytes it raises [ValueError]. *)
Theorem is_LWS_bytes : ∀ b,
  (0 ≤ b ≤ 255 → is_LWS b = Ok (bool_decide (b ∈ [0x20; 0x09; 0x0D; 0x0A]))) ∧
  (¬ 0 ≤ b ≤ 255 → is_LWS b = Raise ValueError).
Proof.
  intros b. unfold is_LWS. split; intros Hb.
  - rewrite contains_byte by done. f_equal.
    apply eq_true_iff_eq. rewrite existsb_eqb_elem_of.
    by rewrite bool_decide_eq_true.
  - by apply contains_out_of_range.
Qed.

(** X7: off the byte range, every registered classifier raises
    [ValueError], whereas the classifiers made of comparisons alone
    return false. *)
Theorem off_bytes_behaviour : ∀ name func b,
  GENERATORS !! name = Some func → ¬ 0 ≤ b ≤ 255 →
  func b = Raise ValueError ∧
  is_alphanum b = Ok false ∧ is_UTF8_NONASCII b = Ok false ∧
  is_UTF8_CONT b = Ok false ∧ is_TEXT_UTF8char b = Ok false.
Proof.
  intros name func b Hreg Hb.
  split; [by eapply classifiers_raise_off_bytes |].
  assert (∀ lo hi, 0 ≤ lo → hi ≤ 255 → between lo b hi = false) as Hout.
  { intros lo hi Hlo Hhi. unfold between.
    destruct (Z.leb_spec lo b), (Z.leb_spec b hi); simpl; try done. lia. }
  unfold is_TEXT_UTF8char, is_UTF8_NONASCII, is_UTF8_CONT, is_alphanum.
  by rewrite !Hout by (by vm_compute).
Qed.

Lemma off_bytes_behaviour_witness :
  is_reason_phrase 256 = Raise ValueError ∧
  is_alphanum 256 = Ok false ∧ is_UTF8_NONASCII 256 = Ok false ∧
  is_UTF8_CONT 256 = Ok false ∧ is_TEXT_UTF8char 256 = Ok false.
Proof.
  apply (off_bytes_behaviour "REASON_PHRASE_MAP" is_reason_phrase 256);
    [reflexivity | lia].
Defined.

(** ** How the maps relate *)

Ltac off_bytes b H :=
  destruct (registered_off_bytes b H) as (Htok & Huri & Hreason & Hheader);
  rewrite ?Htok, ?Huri, ?Hreason, ?Hheader.

(** X8: every integer the request-URI classifier admits, the reason-phrase
    classifier admits too; what the reason-phrase classifier admits
    beyond it is exactly 0xFF, SPACE and HTAB. *)
Theorem request_uri_within_reason_phrase : ∀ b,
  (is_request_uri b = Ok true → is_reason_phrase b = Ok true) ∧
  (is_reason_phrase b = Ok true ∧ is_request_uri b = Ok false ↔
   b ∈ [0xFF; 0x20; 0x09]).
Proof.
  apply (forall_integers _); [by vm_compute |].
  intros b Hb. off_bytes b Hb. split; [done |]. split; [by intros [? _] |].
  rewrite !elem_of_cons, elem_of_nil. lia.
Qed.

(** X9: every integer the token classifier admits, the request-URI
    classifier admits too, but for the backquote, which the token
    classifier alone admits. *)
Theorem token_within_request_uri : ∀ b,
  (is_token b = Ok true → is_request_uri b = Ok true ∨ b = ord "`") ∧
  (is_token b = Ok true ∧ is_request_uri b = Ok false ↔ b = ord "`").
Proof.
  apply (forall_integers _); [by vm_compute |].
  intros b Hb. off_bytes b Hb. split; [done |]. split; [by intros [? _] |].
  intros ->. contradict Hb. by vm_compute.
Qed.

(** X10: the token and request-URI classifiers admit printable ASCII
    bytes only (0x21 to 0x7E); the header-value classifier admits all of
    these, and everything the reason-phrase classifier admits except
    0xFF, which it rejects. *)
Theorem maps_within_header_value : ∀ b,
  (is_token b = Ok true ∨ is_request_uri b = Ok true → 0x21 ≤ b ≤ 0x7E) ∧
  (0x21 ≤ b ≤ 0x7E → is_header_value b = Ok true) ∧
  (is_reason_phrase b = Ok true → is_header_value b = Ok true ∨ b = 0xFF) ∧
  (b = 0xFF → is_reason_phrase b = Ok true ∧ is_header_value b = Ok false).
Proof.
  apply (forall_integers _); [by vm_compute |].
  intros b Hb. off_bytes b Hb.
  split; [by intros [? | ?] |]. repeat split; try done; lia.
Qed.

(** X11: an alphanumeric integer is admitted by every registered
    classifier. *)
Theorem alphanum_in_every_map : ∀ name func b,
  GENERATORS !! name = Some func → is_alphanum b = Ok true → func b = Ok true.
Proof.
  intros name func b Hreg Halnum.
  destruct (GENERATORS_lookup _ _ Hreg) as
    [[_ ->]|[[_ ->]|[[_ ->]|[_ ->]]]].
  - unfold is_token. by rewrite Halnum.
  - unfold is_request_uri. by rewrite Halnum.
  - unfold is_reason_phrase. by rewrite Halnum.
  - rewrite is_alphanum_Ok in Halnum.
    assert (between 0x21 b 0x7E = true) as Hprintable.
    { injection Halnum as Halnum.
      rewrite !orb_true_iff, !between_spec in Halnum.
      apply between_spec. change (ord "a") with 97 in Halnum.
      change (ord "z") with 122 in Halnum. change (ord "A") with 65 in Halnum.
      change (ord "Z") with 90 in Halnum. change (ord "0") with 48 in Halnum.
      change (ord "9") with 57 in Halnum. lia. }
    unfold is_header_value, is_TEXT_UTF8char. by rewrite Hprintable.
Qed.

Lemma alphanum_in_every_map_witness :
  is_header_value (ord "q") = Ok true.
Proof.
  apply (alphanum_in_every_map "HEADER_VALUE_MAP" is_header_value (ord "q"));
    reflexivity.
Defined.

(** * Further properties of the emitter *)

Lemma for_each_app {A} (l1 l2 : list A) (body : A → IO unit) out :
  for_each (l1 ++ l2) body out =
  match for_each l1 body out with
  | (Ok _, out') => for_each l2 body out'
  | (Raise e, out') => (Raise e, out')
  end.
Proof.
  revert out. induction l1 as [|x l1 IH]; intros out; [done |].
  rewrite <- app_comm_cons. simpl. unfold mbind, IO_bind.
  destruct (body x out) as [[[]|e] out1]; [apply IH | done].
Qed.

Lemma for_each_ext {A} (xs : list A) (body1 body2 : A → IO unit) out :
  (∀ x out', body1 x out' = body2 x out') →
  for_each xs body1 out = for_each xs body2 out.
Proof.
  intros Hext. revert out. induction xs as [|x xs IH]; intros out; [done |].
  simpl. unfold mbind, IO_bind. rewrite Hext.
  destruct (body2 x out) as [[[]|e] out1]; [apply IH | done].
Qed.

Lemma emit_entry_Raise func align i e out :
  align ≠ 0 → func i = Raise e →
  emit_entry func align i out = (Raise e, out +:+ row_break align i).
Proof.
  intros Halign He. apply Z.eqb_neq in Halign.
  unfold emit_entry, py_mod, row_break, mbind, IO_bind, lift, print, mret, IO_ret.
  rewrite Halign, He.
  destruct (i mod align =? 0); by rewrite !string_app_nil_r.
Qed.

Lemma emit_entry_zero_width func i out :
  emit_entry func 0 i out = (Raise ZeroDivisionError, out).
Proof. reflexivity. Qed.

(** The run of [generate_lookup_table] on an instance of [int] that the
    first line can show, by the outcome of its loop. *)
Lemma generate_lookup_table_run name func n count shown align out :
  isinstance_int n = Some (count, shown) →
  decimal_digits count ≤ MAX_STR_DIGITS →
  generate_lookup_table name func n align out =
  match for_each (range count) (emit_entry func align)
          (out +:+ FIRST_LINE name shown) with
  | (Ok _, out') => (Ok tt, out' +:+ nl +:+ LAST_LINE +:+ nl +:+ nl)
  | (Raise e, out') => (Raise e, out')
  end.
Proof.
  intros Hn Hdigits. unfold generate_lookup_table.
  rewrite Hn, format_Ok by done.
  unfold mbind, IO_bind, lift, print at 1. rewrite string_app_nil_r.
  destruct (for_each _ _ _) as [[[]|e] out1]; [| done].
  unfold print. by rewrite !string_app_assoc.
Qed.

(** The run on an instance of [int] that the first line cannot show. *)
Lemma generate_lookup_table_oversized name func n count shown align out :
  isinstance_int n = Some (count, shown) →
  MAX_STR_DIGITS < decimal_digits count →
  generate_lookup_table name func n align out = (Raise ValueError, out).
Proof.
  intros Hn Hdigits. unfold generate_lookup_table.
  by rewrite Hn, format_Raise by done.
Qed.

Lemma for_each_emit_returns func align indices out :
  (for_each indices (emit_entry func align) out).1 = Ok tt →
  indices = [] ∨ align ≠ 0 ∧ Forall (λ i, ∃ v, func i = Ok v) indices.
Proof.
  revert out. induction indices as [|i indices IH]; intros out Hrun; [by left |].
  right. destruct (decide (align = 0)) as [-> | Halign]; [done |].
  split; [done |]. simpl in Hrun. unfold mbind, IO_bind in Hrun.
  destruct (func i) as [v | e] eqn:Hi.
  - rewrite emit_entry_Ok in Hrun by eauto.
    constructor; [by eauto |].
    destruct (IH _ Hrun) as [-> | [_ Hall]]; [constructor | done].
  - by rewrite (emit_entry_Raise _ _ _ e) in Hrun.
Qed.

(** X12: [generate_lookup_table] returns normally exactly when [n] is an
    instance of [int] of at most [MAX_STR_DIGITS] decimal digits and
    either it is not positive, or the row width is not zero and the
    classifier returns on every index below [n]. *)
Theorem generate_lookup_table_returns : ∀ name func n align out,
  (generate_lookup_table name func n align out).1 = Ok tt ↔
  ∃ count shown, isinstance_int n = Some (count, shown) ∧
    decimal_digits count ≤ MAX_STR_DIGITS ∧
    (count ≤ 0 ∨ align ≠ 0 ∧ ∀ i, 0 ≤ i < count → ∃ v, func i = Ok v).
Proof.
  intros name func n align out. split.
  - destruct (isinstance_int n) as [[count shown]|] eqn:Hn;
      [| by unfold generate_lookup_table; rewrite Hn].
    destruct (decide (decimal_digits count ≤ MAX_STR_DIGITS)) as [Hdigits | Hover];
      [| by rewrite (generate_lookup_table_oversized _ _ _ _ _ _ _ Hn) by lia].
    rewrite (generate_lookup_table_run _ _ _ _ _ _ _ Hn Hdigits).
    intros Hrun. exists count, shown. split; [done |]. split; [done |].
    destruct (for_each _ _ _) as [[[]|e] out1] eqn:Hloop; [| done].
    apply (f_equal fst) in Hloop. simpl in Hloop.
    apply for_each_emit_returns in Hloop as [Hnil | [Halign Hall]].
    + left. apply (f_equal length) in Hnil. unfold range in Hnil.
      rewrite length_seqZ in Hnil. simpl in Hnil. lia.
    + right. split; [done |]. unfold range in Hall.
      rewrite Forall_seqZ in Hall. intros i Hi. apply Hall. lia.
  - intros (count & shown & Hn & Hdigits & [Hcount | [Halign Htotal]]).
    + rewrite (generate_lookup_table_run _ _ _ _ _ _ _ Hn Hdigits).
      by rewrite range_nonpositive.
    + by rewrite
        (generate_lookup_table_Ok _ _ _ _ _ _ _ Hn Hdigits Halign Htotal).
Qed.

(** X13: with a row width of zero and a positive domain size that the
    first line can show (at most [MAX_STR_DIGITS] decimal digits) the
    generation raises [ZeroDivisionError] at index 0: the first line has
    been printed, nothing else is, and the classifier is never called. *)
Theorem zero_width_raises : ∀ name func n count shown out,
  isinstance_int n = Some (count, shown) → 0 < count →
  decimal_digits count ≤ MAX_STR_DIGITS →
  generate_lookup_table name func n 0 out =
  (Raise ZeroDivisionError, out +:+ FIRST_LINE name shown).
Proof.
  intros name func n count shown out Hn Hcount Hdigits.
  rewrite (generate_lookup_table_run _ _ _ _ _ _ _ Hn Hdigits).
  unfold range. by rewrite seqZ_cons.
Qed.

Lemma zero_width_raises_witness :
  generate_lookup_table "TOKEN_MAP" (λ _, Raise ValueError) (PyInt 256) 0 "" =
  (Raise ZeroDivisionError, "" +:+ FIRST_LINE "TOKEN_MAP" "256").
Proof.
  apply (zero_width_raises "TOKEN_MAP" _ (PyInt 256) 256 "256" "");
    [reflexivity | lia | by vm_compute].
Defined.

(** X20: an instance of [int] of more than [MAX_STR_DIGITS] decimal
    digits, positive or not, is rejected with [ValueError] when the first
    line is formatted: nothing is printed, the classifier is never called,
    and a row width of zero goes unnoticed. *)
Theorem oversized_domain_raises : ∀ name func n count shown align out,
  isinstance_int n = Some (count, shown) →
  MAX_STR_DIGITS < decimal_digits count →
  generate_lookup_table name func n align out = (Raise ValueError, out).
Proof.
  intros name func n count shown align out Hn Hdigits.
  by eapply generate_lookup_table_oversized.
Qed.

Lemma oversized_domain_raises_witness :
  generate_lookup_table "TOKEN_MAP" is_token (PyInt (10 ^ 4300)) 0 "" =
  (Raise ValueError, "").
Proof.
  apply (oversized_domain_raises "TOKEN_MAP" is_token (PyInt (10 ^ 4300))
           (10 ^ 4300) (str_int (10 ^ 4300)) 0 "");
    [reflexivity | by vm_compute].
Defined.

Lemma mod_opp_zero i align : (i mod - align =? 0) = (i mod align =? 0).
Proof.
  destruct (Z.eqb_spec (i mod align) 0) as [H0 | Hne].
  - apply Z.eqb_eq. destruct (decide (align = 0)) as [-> | Halign]; [done |].
    by apply Z.mod_opp_r_z.
  - apply Z.eqb_neq. intros H0. apply Hne.
    destruct (decide (align = 0)) as [-> | Halign]; [done |].
    rewrite <- (Z.opp_involutive align). apply Z.mod_opp_r_z; [lia | done].
Qed.

(** X14: the sign of the row width does not matter: a negative width
    breaks the rows as its absolute value does, whatever the classifier
    and the domain size. *)
Theorem width_sign_irrelevant : ∀ name func n align out,
  generate_lookup_table name func n (- align) out =
  generate_lookup_table name func n align out.
Proof.
  intros name func n align out. unfold generate_lookup_table.
  destruct (isinstance_int n) as [[count shown]|]; [| done].
  unfold mbind, IO_bind.
  destruct (lift (format count shown) out) as [[text|e] out0]; [| done].
  destruct (print _ _ out0) as [[[]|e] out1]; [| done].
  rewrite (for_each_ext _ (emit_entry func (- align)) (emit_entry func align));
    [done |].
  intros i out'. unfold emit_entry, py_mod, mbind, IO_bind, lift.
  assert ((- align =? 0) = (align =? 0)) as ->
    by (destruct (Z.eqb_spec (- align) 0), (Z.eqb_spec align 0); lia || done).
  destruct (align =? 0); [done |]. by rewrite mod_opp_zero.
Qed.

(** ** A table cut short by an exception *)

Lemma rows_text_app rows1 rows2 :
  rows_text (rows1 ++ rows2) = rows_text rows1 +:+ rows_text rows2.
Proof.
  induction rows1 as [|row rows1 IH]; [done |].
  rewrite <- app_comm_cons. unfold rows_text in *. simpl.
  by rewrite IH, !string_app_assoc.
Qed.

Lemma lines_rows_text rows :
  Forall (λ row, occurs "010" row = false) rows → rows ≠ [] →
  lines (rows_text rows) = "" :: rows.
Proof.
  induction 1 as [|row rows Hrow Hrows IH]; [done |]. intros _.
  change (rows_text (row :: rows)) with (String "010" (row +:+ rows_text rows)).
  change (lines (String "010" ?s)) with ("" :: lines s). f_equal.
  destruct rows as [|row2 rows].
  - unfold lines. simpl. by rewrite string_app_nil_r, split_on_free.
  - specialize (IH ltac:(done)).
    change (rows_text (row2 :: rows))
      with (String "010" (row2 +:+ rows_text rows)) in IH |- *.
    change (lines (String "010" ?s)) with ("" :: lines s) in IH.
    injection IH as IH. unfold lines in *. by rewrite split_on_app_sep, IH.
Qed.

Lemma until_last_line_all rows :
  Forall (λ row, row ≠ LAST_LINE) rows → until_last_line rows = rows.
Proof.
  induction 1 as [|row rows Hrow _ IH]; [done |].
  simpl. apply String.eqb_neq in Hrow. by rewrite Hrow, IH.
Qed.

Lemma entries_of_rows vals spans :
  concat (row_entries <$> (row_text vals <$> spans)) =
  (λ i, flag (vals i)) <$> concat (span_indices <$> spans).
Proof.
  induction spans as [|span spans IH]; [done |].
  rewrite !fmap_cons, !concat_cons, fmap_app, IH.
  by rewrite row_entries_row_text.
Qed.

(** What has been printed after [FIRST_LINE] when the classifier raises
    at index [k]: the rows of the [k] entries before it, and the start
    of a new row if [k] opens one. *)
Lemma partial_table width vals k :
  0 < width → 0 ≤ k →
  ∃ rows,
    loop_text width vals (range k) +:+ row_break width k = rows_text rows ∧
    rows ≠ [] ∧
    Forall (λ row, occurs "010" row = false) rows ∧
    Forall (λ row, row ≠ LAST_LINE) rows ∧
    concat (row_entries <$> rows) = (λ i, flag (vals i)) <$> range k.
Proof.
  intros Hwidth Hk.
  exists ((row_text vals <$> row_spans width k) ++
          (if k mod width =? 0 then ["   "] else []))%list.
  split; [| split; [| split; [| split]]].
  - rewrite <- (row_spans_indices width Hwidth k Hk) at 1.
    rewrite loop_text_spans by auto using row_spans_aligned.
    rewrite rows_text_app. f_equal. unfold row_break.
    by destruct (k mod width =? 0).
  - unfold row_spans.
    destruct (k mod width =? 0); intros Hnil;
      apply (f_equal length) in Hnil;
      rewrite ?fmap_app, !length_app in Hnil; simpl in Hnil; lia.
  - apply Forall_app. split.
    + apply Forall_fmap, Forall_forall. intros span _. apply occurs_row_text.
    + destruct (k mod width =? 0); by repeat constructor.
  - apply Forall_app. split.
    + apply Forall_fmap, Forall_forall. intros span _.
      apply row_text_not_last_line.
    + destruct (k mod width =? 0); by repeat constructor.
  - rewrite fmap_app, concat_app, entries_of_rows.
    rewrite (row_spans_indices width Hwidth k Hk).
    destruct (k mod width =? 0); simpl; by rewrite app_nil_r.
Qed.

(** X15: when the classifier returns on the indices below [k] and raises
    at [k], inside a domain whose size the first line can show (at most
    [MAX_STR_DIGITS] decimal digits), the generation raises the same
    exception; the first line and the first [k] entries have been
    printed, in their rows, and the closing line never is. *)
Theorem table_cut_at_first_error : ∀ name func n count shown align out k e,
  isinstance_int n = Some (count, shown) →
  decimal_digits count ≤ MAX_STR_DIGITS → 0 < align → 0 ≤ k < count →
  (∀ i, 0 ≤ i < k → ∃ v, func i = Ok v) → func k = Raise e →
  ∃ written,
    generate_lookup_table name func n align out =
      (Raise e, out +:+ FIRST_LINE name shown +:+ written) ∧
    (LAST_LINE ∉ lines written) ∧
    Ok <$> table_entries written = entry func <$> range k.
Proof.
  intros name func n count shown align out k e Hn Hdigits Halign Hk Htotal He.
  exists (loop_text align (value_of func) (range k) +:+ row_break align k).
  split.
  - rewrite (generate_lookup_table_run _ _ _ _ _ _ _ Hn Hdigits).
    unfold range.
    replace count with (k + (count - k)) by lia.
    rewrite seqZ_app, (seqZ_cons (0 + k)) by lia.
    rewrite for_each_app, for_each_emit_Ok;
      [| lia | apply Forall_seqZ; intros i Hi; apply Htotal; lia].
    simpl. unfold mbind, IO_bind.
    rewrite (emit_entry_Raise _ _ _ e) by (done || lia).
    by rewrite !string_app_assoc.
  - destruct (partial_table align (value_of func) k)
      as (rows & -> & Hne & Hfree & Hlast & Hentries); [done | lia |].
    rewrite lines_rows_text by done. split.
    + rewrite elem_of_cons. intros [Hempty | Hin]; [done |].
      rewrite Forall_forall in Hlast. by apply (Hlast _ Hin).
    + unfold table_entries, table_rows. rewrite lines_rows_text by done.
      simpl. rewrite until_last_line_all, Hentries by done.
      rewrite <- list_fmap_compose. apply Forall_fmap_ext_1, Forall_seqZ.
      intros i Hi. unfold entry. simpl.
      by rewrite (value_of_Ok func i) by (apply Htotal; lia).
Qed.

Lemma table_cut_at_first_error_witness :
  ∃ written,
    generate_lookup_table "TOKEN_MAP" is_token (PyInt 300) 16 "" =
      (Raise ValueError, "" +:+ FIRST_LINE "TOKEN_MAP" "300" +:+ written) ∧
    (LAST_LINE ∉ lines written) ∧
    Ok <$> table_entries written = entry is_token <$> range 256.
Proof.
  apply (table_cut_at_first_error "TOKEN_MAP" is_token (PyInt 300) 300 "300"
           16 "" 256 ValueError);
    [reflexivity | by vm_compute | lia | lia | | reflexivity].
  intros i Hi. apply (registered_total "TOKEN_MAP"); [reflexivity | lia].
Defined.

(** * Further properties of requests *)

Lemma first_unregistered args :
  Forall (λ name, is_Some (GENERATORS !! name)) args ∨
  ∃ before unknown after,
    args = (before ++ unknown :: after)%list ∧
    Forall (λ name, is_Some (GENERATORS !! name)) before ∧
    GENERATORS !! unknown = None.
Proof.
  induction args as [|arg args IH]; [by left |].
  destruct (GENERATORS !! arg) as [func|] eqn:Harg.
  - destruct IH as [Hall | (before & unknown & after & -> & Hbefore & Hnone)].
    + left. constructor; [by eexists | done].
    + right. exists (arg :: before), unknown, after.
      split; [done |]. split; [| done]. constructor; [by eexists | done].
  - right. by exists [], arg, args.
Qed.

(** X16: a request succeeds exactly when every one of its names is
    registered, and the only exception [main] ever raises is the
    [KeyError] of a name of the request that is not registered. *)
Theorem main_outcome : ∀ args out,
  ((main args out).1 = Ok tt ↔
   Forall (λ name, is_Some (GENERATORS !! name)) args) ∧
  (∀ e, (main args out).1 = Raise e →
     ∃ unknown, e = KeyError unknown ∧ unknown ∈ args ∧
                GENERATORS !! unknown = None).
Proof.
  intros args out.
  destruct (first_unregistered args)
    as [Hall | (before & unknown & after & -> & Hbefore & Hnone)].
  - rewrite main_registered by done. simpl. split; [done |]. by intros e.
  - rewrite main_app, main_unknown_first by done. simpl. split.
    + split; [done |]. intros Hall. apply Forall_app in Hall as [_ Hall].
      apply Forall_cons in Hall as [[func Hfunc] _]. congruence.
    + intros e [= <-]. exists unknown. split; [done |]. split; [| done].
      apply elem_of_app. right. by left.
Qed.

(** X17: requests compose: the names of [xs ++ ys] are served as those of
    [xs] and then, if that succeeded, those of [ys] on the output left by
    [xs]; a failure among [xs] is the failure of the whole. *)
Theorem main_app_compose : ∀ xs ys out,
  main (xs ++ ys) out =
  match main xs out with
  | (Ok _, out') => main ys out'
  | (Raise e, out') => (Raise e, out')
  end.
Proof.
  intros xs ys. induction xs as [|x xs IH]; intros out; [done |].
  rewrite <- app_comm_cons. simpl. unfold mbind, IO_bind.
  destruct (getitem x out) as [[func|e] out1]; [| done].
  destruct (generate_lookup_table x func (PyInt 256) 16 out1)
    as [[[]|e] out2]; [apply IH | done].
Qed.

(** X18: what [main] prints for a registered name, read back whole, is a
    table of 16 rows of 16 entries whose entries are the classifier's
    values on 0, 1, ..., 255, in this order. *)
Theorem main_prints_the_map : ∀ name func,
  GENERATORS !! name = Some func →
  let text := (main [name] "").2 in
  Ok <$> table_entries text = entry func <$> range 256 ∧
  length (table_rows text) = 16%nat ∧
  Forall (λ row, length (row_entries row) = 16%nat) (table_rows text).
Proof.
  intros name func Hreg.
  destruct (GENERATORS_lookup _ _ Hreg) as
    [[-> ->]|[[-> ->]|[[-> ->]|[-> ->]]]];
    (split; [by vm_compute | split; [by vm_compute | by_computation]]).
Qed.

Lemma main_prints_the_map_witness :
  let text := (main ["REQUEST_URI_MAP"] "").2 in
  Ok <$> table_entries text = entry is_request_uri <$> range 256 ∧
  length (table_rows text) = 16%nat ∧
  Forall (λ row, length (row_entries row) = 16%nat) (table_rows text).
Proof.
  apply (main_prints_the_map "REQUEST_URI_MAP" is_request_uri). reflexivity.
Defined.

(** X19: a request of registered names prints their tables one after the
    other in the order requested, each table being what a request for
    that name alone prints on a fresh output. *)
Theorem main_tables_in_order : ∀ names out,
  Forall (λ name, is_Some (GENERATORS !! name)) names →
  main names out =
  (Ok tt, out +:+ foldr (λ name acc, (main [name] "").2 +:+ acc) "" names).
Proof.
  intros names out Hall. rewrite main_registered by done. do 2 f_equal.
  induction Hall as [|name names Hname _ IH]; [done |].
  unfold artifacts in *. cbn [fold_right]. rewrite <- IH. f_equal.
  rewrite (main_registered [name] "") by (by repeat constructor).
  unfold artifacts. cbn [fold_right snd]. by rewrite string_app_nil_r.
Qed.

Lemma main_tables_in_order_witness :
  main ["HEADER_VALUE_MAP"; "TOKEN_MAP"] "" =
  (Ok tt, "" +:+ foldr (λ name acc, (main [name] "").2 +:+ acc) ""
                   ["HEADER_VALUE_MAP"; "TOKEN_MAP"]).
Proof.
  apply (main_tables_in_order ["HEADER_VALUE_MAP"; "TOKEN_MAP"] "").
  repeat constructor; by eexists.
Defined.
